(** * CustomDataset/metrics.py: evaluation metrics and diagnostic plots

    A shallow embedding of [src/CustomDataset/metrics.py].  Python values
    are modelled as follows.

    - Python integers (labels, class indices, loop counters) are [Z].
    - A label vector is a [list Z]; subscripting follows Python, negative
      subscripts included, and raises [IndexError] out of range.
    - A raised exception is the [Raise] outcome of a [result].
    - A metrics record (a [dict] keyed by metric name) is a
      [gmap string (list float)].
    - Scores and metric values are the type [float] below: exact rationals
      extended with the IEEE special values, so their rounding is not
      modelled.  The float division of [plot_confusion_matrix] is IEEE
      binary64 ([float64], on the Standard Library's [SpecFloat]).
    - scikit-learn, the operating system and matplotlib are not part of the
      repository; they appear as interfaces ([Sklearn], [OS]) and as a log
      of drawing calls. *)

From Stdlib Require Import ZArith QArith List Lia.
From Stdlib Require SpecFloat.
From stdpp Require Import base list sorting strings pretty gmap.

Local Open Scope Z_scope.

(** ** Exceptions and the error monad *)

Inductive exn :=
| IndexError
| KeyError (key : string)
| ValueError
| TypeError
| OSError.

Inductive result (A : Type) :=
| Ok (a : A)
| Raise (e : exn).
Arguments Ok {A} a.
Arguments Raise {A} e.

#[export] Instance result_ret : MRet result := λ A a, Ok a.
#[export] Instance result_bind : MBind result := λ A B k m,
  match m with
  | Ok a => k a
  | Raise e => Raise e
  end.

(** [for x in xs: body], threading the local variables [S] the body
    assigns to. *)
Fixpoint for_ {M} `{MRet M, MBind M} {A S}
    (xs : list A) (body : S → A → M S) (s : S) : M S :=
  match xs with
  | [] => mret s
  | x :: xs' => s' ← body s x; for_ xs' body s'
  end.

(** [[f(x) for x in xs]] where [f] may raise. *)
Fixpoint comprehension {A B} (f : A → result B) (xs : list A) : result (list B) :=
  match xs with
  | [] => Ok []
  | x :: xs' => b ← f x; bs ← comprehension f xs'; Ok (b :: bs)
  end.

(** ** Python sequences *)

(** [range(n)] *)
Definition range (n : nat) : list Z := Z.of_nat <$> seq 0 n.

(** [l[i]]: a negative subscript counts from the end. *)
Definition getitem {A} (l : list A) (i : Z) : result A :=
  let n := Z.of_nat (length l) in
  let j := if i <? 0 then i + n else i in
  if (j <? 0) || (n <=? j) then Raise IndexError
  else match l !! Z.to_nat j with
       | Some a => Ok a
       | None => Raise IndexError
       end.

(** [np.unique(l)]: the sorted distinct values of [l]. *)
Fixpoint insert_sorted (x : Z) (l : list Z) : list Z :=
  match l with
  | [] => [x]
  | h :: t =>
      if x <? h then x :: l
      else if x =? h then l
      else h :: insert_sorted x t
  end.

Definition np_unique (l : list Z) : list Z := foldr insert_sorted [] l.

(** ** [check_pred] *)

(** The local variables of [check_pred].  The parameter [i] and the loop
    target [i] are one variable, [loc_i]: the [for] statement rebinds it
    at the start of every iteration. *)
Record check_pred_locals := { loc_i : Z; loc_y : list Z }.

Definition check_pred_body (y_true : list Z)
    (fr : check_pred_locals) (k : Z) : result check_pred_locals :=
  let fr := {| loc_i := k; loc_y := loc_y fr |} in
  v ← getitem y_true (loc_i fr);
  if v =? loc_i fr
  then Ok {| loc_i := loc_i fr; loc_y := loc_y fr ++ [1] |}
  else Ok {| loc_i := loc_i fr; loc_y := loc_y fr ++ [0] |}.

Definition check_pred (y_true : list Z) (i : Z) : result (list Z) :=
  fr ← for_ (range (length y_true)) (check_pred_body y_true)
            {| loc_i := i; loc_y := [] |};
  Ok (loc_y fr).

(** The one-vs-rest binarisation that section 4.1 of the specification
    asks of [check_pred]: 1 where the sample's label is the class [c], 0
    elsewhere.  It is not in the source; [check_pred] is compared with it. *)
Definition one_vs_rest (y_true : list Z) (c : Z) : list Z :=
  (λ v, if v =? c then 1 else 0) <$> y_true.

(** ** Floats *)

(** A float is an exact rational or one of the IEEE special values.
    Signed zeros and rounding are not modelled. *)
Inductive float :=
| Finite (q : Q)
| Inf (negative : bool)
| NaN.

Definition float_of_int (z : Z) : float := Finite (inject_Z z).

Definition Qnegative (q : Q) : bool := negb (Qle_bool 0 q).
Definition Qzero (q : Q) : bool := Qeq_bool q 0.

(** Division of scores and metric values: the exact quotient, with the
    IEEE special cases ([0/0] is not-a-number, [x/0] an infinity). *)
Definition fdiv (a b : float) : float :=
  match a, b with
  | NaN, _ | _, NaN => NaN
  | Inf _, Inf _ => NaN
  | Inf s, Finite q => Inf (xorb s (Qnegative q))
  | Finite _, Inf _ => Finite 0
  | Finite p, Finite q =>
      if Qzero q then (if Qzero p then NaN else Inf (Qnegative p))
      else Finite (Qred (p / q))
  end.

(** *** NumPy [float64] *)

(** An IEEE binary64 number: 53 bits of precision, exponents below 1024,
    every operation rounded to nearest, ties to even. *)
Definition float64 : Type := SpecFloat.spec_float.

(** The conversion of an integer, [astype('float')]. *)
Definition float64_of_int (z : Z) : float64 :=
  SpecFloat.binary_normalize 53 1024 z 0 false.

(** [a / b]: [0/0] is not-a-number and [x/0] an infinity; under NumPy's
    default error state neither raises. *)
Definition div64 (a b : float64) : float64 := SpecFloat.SFdiv 53 1024 a b.

Definition add64 (a b : float64) : float64 := SpecFloat.SFadd 53 1024 a b.

(** The sum of a short row, added left to right. *)
Definition sum64 (l : list float64) : float64 :=
  foldl add64 (SpecFloat.S754_zero false) l.

(** The rational a finite [float64] stands for. *)
Definition Q_of_float64 (x : float64) : option Q :=
  match x with
  | SpecFloat.S754_zero _ => Some 0%Q
  | SpecFloat.S754_finite s m e =>
      Some (inject_Z (if s then Z.neg m else Z.pos m) * 2 ^ e)%Q
  | _ => None
  end.

(** A two-dimensional float array of shape [(length rows, ncols)]. *)
Record matrix := { ncols : nat; rows : list (list float) }.

(** [m[:, i]]; every row of an array has [ncols] entries. *)
Definition column (m : matrix) (i : Z) : result (list float) :=
  let n := Z.of_nat (ncols m) in
  let j := if i <? 0 then i + n else i in
  if (j <? 0) || (n <=? j) then Raise IndexError
  else Ok ((λ r, nth (Z.to_nat j) r NaN) <$> rows m).

(** ** scikit-learn *)

(** The four functions the module imports from [sklearn.metrics], as the
    module calls them.  They are not part of the repository. *)
Class Sklearn := {
  precision_recall_fscore_support :
    list Z → list Z → option (list Z) →
    result (list float * list float * list float * list Z);
  roc_curve : list Z → list float → result (list float * list float * list float);
  auc : list float → list float → result float;
  confusion_matrix : list Z → list Z → result (list (list Z))
}.

(** ** [calculate_metrics] *)

(** One iteration of the per-class AUC loop. *)
Definition calculate_metrics_body `{Sklearn} (y_true : list Z) (y_score : matrix)
    (roc_auc : list float) (i : Z) : result (list float) :=
  y_true_binary ← check_pred y_true i;
  if (1 <? length (np_unique y_true_binary))%nat then
    col ← column y_score i;
    '(fpr, tpr, _) ← roc_curve y_true_binary col;
    a ← auc fpr tpr;
    Ok (roc_auc ++ [a])
  else
    Ok (roc_auc ++ [Finite 0]).

Definition calculate_metrics `{Sklearn} (y_true y_pred : list Z)
    (y_score : option matrix) (labels : option (list Z))
    : result (gmap string (list float)) :=
  '(precision, recall, f1, _) ← precision_recall_fscore_support y_true y_pred labels;
  let metrics : gmap string (list float) :=
    <["f1" := f1]> (<["recall" := recall]> (<["precision" := precision]> ∅)) in
  match y_score with
  | Some y_score =>
      let n_classes := length (np_unique y_true) in
      roc_auc ← for_ (range n_classes) (calculate_metrics_body y_true y_score) [];
      Ok (<["auc" := roc_auc]> metrics)
  | None => Ok metrics
  end.

(** ** The operating system *)

(** What the module uses of [os]: a file-system state, [os.path.exists]
    and [os.makedirs]; [None] stands for a raised [OSError]. *)
Class OS := {
  fs : Type;
  os_path_exists : fs → string → bool;
  os_makedirs : fs → string → option fs
}.

(** The documented effect of [os.makedirs]: when it returns, the leaf
    directory exists. *)
Definition makedirs_creates (os : OS) : Prop :=
  ∀ (d d' : fs) (p : string), os_makedirs d p = Some d' → os_path_exists d' p = true.

Fixpoint endswith_sep (s : string) : bool :=
  match s with
  | EmptyString => false
  | String c EmptyString => Ascii.eqb c (Ascii.ascii_of_nat 47)
  | String _ s' => endswith_sep s'
  end.

(** [os.path.join(a, b)] of [posixpath]. *)
Definition os_path_join (a b : string) : string :=
  if String.prefix "/" b then b
  else if String.eqb a EmptyString || endswith_sep a then a +:+ b
  else a +:+ "/" +:+ b.

(** ** matplotlib and seaborn *)

(** A legend label: plain text, or [f'{name} (AUC = {auc:.2f})']. *)
Inductive label :=
| Text (s : string)
| WithAUC (name : string) (auc : float).

Inductive array2 :=
| IntArray (a : list (list Z))
| FloatArray (a : list (list float64)).

(** The drawing calls the module issues; the canvas is their log. *)
Inductive plt_call :=
| plt_figure (width height : Z)
| plt_subplot (nrows ncols index : Z)
| plt_plot (xs ys : list float) (fmt : option string) (lbl : option label)
| plt_xlim (lo hi : Q)
| plt_ylim (lo hi : Q)
| plt_xlabel (s : string)
| plt_ylabel (s : string)
| plt_title (s : string)
| plt_suptitle (s : string)
| plt_legend (loc : option string)
| plt_grid (b : bool)
| plt_tight_layout
| sns_heatmap (data : array2) (annot : bool) (fmt cmap : string)
    (xticklabels yticklabels : list string)
| plt_savefig (path : string) (dpi : Z) (bbox_inches : string)
| plt_close.

(** The state a plotting function acts on.  [plt.savefig] is recorded on
    the canvas; it is taken to succeed once its directory exists. *)
Record world `{OS} := { disk : fs; canvas : list plt_call }.

Definition plotting `{OS} (A : Type) : Type := world → result (A * world).

#[export] Instance plotting_ret `{OS} : MRet plotting := λ A a w, Ok (a, w).
#[export] Instance plotting_bind `{OS} : MBind plotting := λ A B k m w,
  match m w with
  | Ok (a, w') => k a w'
  | Raise e => Raise e
  end.

Definition lift `{OS} {A} (r : result A) : plotting A := λ w,
  match r with
  | Ok a => Ok (a, w)
  | Raise e => Raise e
  end.

Definition plt `{OS} (c : plt_call) : plotting unit := λ w,
  Ok (tt, {| disk := disk w; canvas := canvas w ++ [c] |}).

Definition path_exists `{OS} (p : string) : plotting bool := λ w,
  Ok (os_path_exists (disk w) p, w).

Definition makedirs `{OS} (p : string) : plotting unit := λ w,
  match os_makedirs (disk w) p with
  | Some d => Ok (tt, {| disk := d; canvas := canvas w |})
  | None => Raise OSError
  end.

(** The files written by [plt.savefig], oldest first. *)
Definition saved_files (log : list plt_call) : list string :=
  omap (λ c, match c with plt_savefig p _ _ => Some p | _ => None end) log.

(** The labelled curves drawn, oldest first. *)
Definition labelled_curves (log : list plt_call) : list (string * float) :=
  omap (λ c, match c with
             | plt_plot _ _ _ (Some (WithAUC n a)) => Some (n, a)
             | _ => None
             end) log.

(** ** [ensure_dir] *)

Definition ensure_dir `{OS} (directory : string) : plotting unit :=
  present ← path_exists directory;
  if negb present then makedirs directory else mret tt.

(** ** [plot_roc_curve] *)

(** [[f'Class {i}' for i in range(n)]] *)
Definition default_class_names (n : nat) : list string :=
  (λ i : Z, "Class " +:+ pretty i) <$> range n.

Definition plot_roc_curve_body `{OS, Sklearn} (y_true : list Z) (y_score : matrix)
    (class_names : list string) (_ : unit) (i : Z) : plotting unit :=
  y_true_binary ← lift (check_pred y_true i);
  if (1 <? length (np_unique y_true_binary))%nat then
    col ← lift (column y_score i);
    '(fpr, tpr, _) ← lift (roc_curve y_true_binary col);
    roc_auc ← lift (auc fpr tpr);
    name ← lift (getitem class_names i);
    plt (plt_plot fpr tpr None (Some (WithAUC name roc_auc)))
  else mret tt.

Definition plot_roc_curve `{OS, Sklearn} (y_true : list Z) (y_score : matrix)
    (class_names : option (list string)) (title save_dir : string) : plotting unit :=
  ensure_dir save_dir;;
  let n_classes := length (np_unique y_true) in
  let class_names := default (default_class_names n_classes) class_names in
  plt (plt_figure 10 8);;
  for_ (range n_classes) (plot_roc_curve_body y_true y_score class_names) tt;;
  plt (plt_plot [Finite 0; Finite 1] [Finite 0; Finite 1] (Some "k--") None);;
  plt (plt_xlim 0 1);;
  plt (plt_ylim 0 (105 # 100));;
  plt (plt_xlabel "False Positive Rate");;
  plt (plt_ylabel "True Positive Rate");;
  plt (plt_title title);;
  plt (plt_legend (Some "lower right"));;
  plt (plt_grid true);;
  plt (plt_savefig (os_path_join save_dir "roc_curves.png") 300 "tight");;
  plt plt_close.

(** ** [plot_metrics_line] *)

(** [m[key]] on a [dict] *)
Definition dict_getitem (m : gmap string (list float)) (key : string)
    : result (list float) :=
  match m !! key with
  | Some v => Ok v
  | None => Raise (KeyError key)
  end.

(** [m[key][class_idx]] *)
Definition metric_at (key : string) (class_idx : Z)
    (m : gmap string (list float)) : result float :=
  s ← dict_getitem m key;
  getitem s class_idx.

Definition plot_metrics_line_body `{OS}
    (metrics_history : list (gmap string (list float)))
    (epochs : list float) (n_classes : nat) (_ : unit) (class_idx : Z)
    : plotting unit :=
  plt (plt_subplot 1 (Z.of_nat n_classes) (class_idx + 1));;
  precision ← lift (comprehension (metric_at "precision" class_idx) metrics_history);
  recall ← lift (comprehension (metric_at "recall" class_idx) metrics_history);
  f1 ← lift (comprehension (metric_at "f1" class_idx) metrics_history);
  plt (plt_plot epochs precision (Some "b-") (Some (Text "Precision")));;
  plt (plt_plot epochs recall (Some "g-") (Some (Text "Recall")));;
  plt (plt_plot epochs f1 (Some "r-") (Some (Text "F1-Score")));;
  first ← lift (getitem metrics_history 0);
  (if bool_decide (is_Some (first !! "auc")) then
     auc_scores ← lift (comprehension (metric_at "auc" class_idx) metrics_history);
     plt (plt_plot epochs auc_scores (Some "y-") (Some (Text "AUC")))
   else mret tt);;
  plt (plt_title ("Class " +:+ pretty class_idx));;
  plt (plt_xlabel "Epoch");;
  plt (plt_ylabel "Score");;
  plt (plt_legend None);;
  plt (plt_grid true).

Definition plot_metrics_line `{OS}
    (metrics_history : list (gmap string (list float)))
    (title save_dir : string) : plotting unit :=
  ensure_dir save_dir;;
  let epochs := float_of_int <$> seqZ 1 (Z.of_nat (length metrics_history)) in
  plt (plt_figure 12 6);;
  first ← lift (getitem metrics_history 0);
  first_precision ← lift (dict_getitem first "precision");
  let n_classes := length first_precision in
  for_ (range n_classes)
       (plot_metrics_line_body metrics_history epochs n_classes) tt;;
  plt (plt_suptitle title);;
  plt plt_tight_layout;;
  plt (plt_savefig (os_path_join save_dir "metrics_over_time.png") 300 "tight");;
  plt plt_close.

(** ** [plot_confusion_matrix] *)

Definition Zsum (l : list Z) : Z := foldr Z.add 0 l.

(** [cm.astype('float')] *)
Definition astype_float (cm : list (list Z)) : list (list float64) :=
  (λ row : list Z, float64_of_int <$> row) <$> cm.

(** [cm.sum(axis=1)] *)
Definition sum_axis1 (cm : list (list Z)) : list Z := Zsum <$> cm.

(** [a / s[:, np.newaxis]]: row [r] of [a] divided by [s[r]]. *)
Definition divide_rows (a : list (list float64)) (s : list Z)
    : list (list float64) :=
  zip_with (λ row d, (λ x, div64 x (float64_of_int d)) <$> row) a s.

Definition normalize_rows (cm : list (list Z)) : list (list float64) :=
  divide_rows (astype_float cm) (sum_axis1 cm).

(** [sns.heatmap(data, annot=.., fmt=.., cmap=.., xticklabels=..,
    yticklabels=..)].  seaborn takes [len] of each tick-label argument
    before it draws, which raises [TypeError] on [None]. *)
Definition heatmap `{OS} (data : array2) (annot : bool) (fmt cmap : string)
    (xticklabels yticklabels : option (list string)) : plotting unit :=
  match xticklabels, yticklabels with
  | Some xs, Some ys => plt (sns_heatmap data annot fmt cmap xs ys)
  | _, _ => lift (Raise TypeError)
  end.

Definition plot_confusion_matrix `{OS, Sklearn} (y_true y_pred : list Z)
    (class_names : option (list string)) (title save_dir : string)
    : plotting unit :=
  ensure_dir save_dir;;
  cm ← lift (confusion_matrix y_true y_pred);
  let cm_norm := normalize_rows cm in
  plt (plt_figure 10 8);;
  heatmap (FloatArray cm_norm) true ".2f" "Blues" class_names class_names;;
  plt (plt_title title);;
  plt (plt_ylabel "True Label");;
  plt (plt_xlabel "Predicted Label");;
  plt (plt_savefig (os_path_join save_dir "confusion_matrix_normalized.png") 300 "tight");;
  plt plt_close;;
  plt (plt_figure 10 8);;
  heatmap (IntArray cm) true "d" "Blues" class_names class_names;;
  plt (plt_title (title +:+ " (Raw Counts)"));;
  plt (plt_ylabel "True Label");;
  plt (plt_xlabel "Predicted Label");;
  plt (plt_savefig (os_path_join save_dir "confusion_matrix_raw.png") 300 "tight");;
  plt plt_close.

(** ** A reference scikit-learn in exact arithmetic *)

Definition count_where {A} (P : A → bool) (l : list A) : Z :=
  foldr (λ a n, if P a then n + 1 else n) 0 l.

Definition same_length {A B} (a : list A) (b : list B) : bool :=
  (length a =? length b)%nat.

(** [unique_labels(y_true, y_pred)] *)
Definition unique_labels (y_true y_pred : list Z) : list Z :=
  np_unique (y_true ++ y_pred).

(** The guarded quotient of the score formulas: zero when undefined. *)
Definition prf_divide (num den : Z) : float :=
  if den =? 0 then Finite 0
  else fdiv (float_of_int num) (float_of_int den).

(** Modelled from the spec: [precision_recall_fscore_support] belongs to
    scikit-learn and is absent from src/.  Per class (section 4.1): true
    positives, false positives and false negatives are counted, precision
    is tp / (tp + fp), recall is tp / (tp + fn), F1 their harmonic mean,
    and an undefined quotient is zero.  The classes are [labels] when
    given, else the sorted labels present in either vector.  Vectors of
    different lengths raise [ValueError]. *)
Definition exact_precision_recall_fscore_support
    (y_true y_pred : list Z) (labels : option (list Z))
    : result (list float * list float * list float * list Z) :=
  if negb (same_length y_true y_pred) then Raise ValueError
  else
    let labels := default (unique_labels y_true y_pred) labels in
    let pairs := zip y_true y_pred in
    let tp_sum c := count_where (λ tp : Z * Z, (tp.1 =? c) && (tp.2 =? c)) pairs in
    let pred_sum c := count_where (λ p : Z, p =? c) y_pred in
    let true_sum c := count_where (λ t : Z, t =? c) y_true in
    Ok ((λ c, prf_divide (tp_sum c) (pred_sum c)) <$> labels,
        (λ c, prf_divide (tp_sum c) (true_sum c)) <$> labels,
        (λ c, prf_divide (2 * tp_sum c) (true_sum c + pred_sum c)) <$> labels,
        true_sum <$> labels).

(** Modelled from the spec: [confusion_matrix] belongs to scikit-learn and
    is absent from src/.  Rows are true classes and columns predicted
    classes (section 4.6), over the sorted labels present in either
    vector; entry [(r, c)] counts the samples of true class [r] predicted
    as [c].  Vectors of different lengths raise [ValueError]. *)
Definition exact_confusion_matrix (y_true y_pred : list Z)
    : result (list (list Z)) :=
  if negb (same_length y_true y_pred) then Raise ValueError
  else
    let labels := unique_labels y_true y_pred in
    let pairs := zip y_true y_pred in
    Ok ((λ r, (λ c, count_where (λ tp : Z * Z, (tp.1 =? r) && (tp.2 =? c)) pairs)
                <$> labels) <$> labels).

Definition finite_value (x : float) : option Q :=
  match x with
  | Finite q => Some q
  | _ => None
  end.

(** The distinct scores, largest first. *)
Fixpoint insert_desc (x : Q) (l : list Q) : list Q :=
  match l with
  | [] => [x]
  | h :: t =>
      if Qle_bool h x then (if Qeq_bool h x then l else x :: l)
      else h :: insert_desc x t
  end.

Definition thresholds_desc (scores : list Q) : list Q := foldr insert_desc [] scores.

(** A point of the curve: false positives, true positives, threshold. *)
Definition binary_clf_curve (y_true : list Z) (scores : list Q)
    : list (Z * Z * Q) :=
  let pairs := zip y_true scores in
  (λ t, (count_where (λ ys : Z * Q, negb (ys.1 =? 1) && Qle_bool t ys.2) pairs,
         count_where (λ ys : Z * Q, (ys.1 =? 1) && Qle_bool t ys.2) pairs,
         t)) <$> thresholds_desc scores.

Definition bends (a b c : Z * Z * Q) : bool :=
  negb (c.1.1 - 2 * b.1.1 + a.1.1 =? 0) || negb (c.1.2 - 2 * b.1.2 + a.1.2 =? 0).

Fixpoint drop_interior (prev : Z * Z * Q) (l : list (Z * Z * Q)) : list (Z * Z * Q) :=
  match l with
  | [] => []
  | cur :: rest =>
      match rest with
      | [] => [cur]
      | next :: _ =>
          (if bends prev cur next then [cur] else []) ++ drop_interior cur rest
      end
  end.

(** [drop_intermediate=True]: interior points on a straight segment go. *)
Definition drop_intermediate (pts : list (Z * Z * Q)) : list (Z * Z * Q) :=
  match pts with
  | first :: rest => if (2 <? length pts)%nat then first :: drop_interior first rest else pts
  | [] => []
  end.

Definition binary_labels (y_true : list Z) : bool :=
  forallb (λ v, (v =? 0) || (v =? 1)) y_true || forallb (λ v, (v =? -1) || (v =? 1)) y_true.

(** Modelled from the spec: [roc_curve] belongs to scikit-learn and is
    absent from src/.  It computes the ROC curve of a binarised ground
    truth against a score column (section 4.1): one point per distinct
    score, from the largest down, after the origin.  Empty, non-binary or
    non-finite input and vectors of different lengths raise
    [ValueError]. *)
Definition exact_roc_curve (y_true : list Z) (y_score : list float)
    : result (list float * list float * list float) :=
  if negb (same_length y_true y_score) || bool_decide (y_true = [])
     || negb (binary_labels y_true)
  then Raise ValueError
  else match mapM finite_value y_score with
       | None => Raise ValueError
       | Some scores =>
           let pts := drop_intermediate (binary_clf_curve y_true scores) in
           let fps := 0 :: ((λ p : Z * Z * Q, p.1.1) <$> pts) in
           let tps := 0 :: ((λ p : Z * Z * Q, p.1.2) <$> pts) in
           let thresholds := Inf false :: ((λ p : Z * Z * Q, Finite p.2) <$> pts) in
           let rate (l : list Z) :=
             (λ v, fdiv (float_of_int v) (float_of_int (List.last l 0))) <$> l in
           Ok (rate fps, rate tps, thresholds)
       end.

Fixpoint diff (xs : list Q) : list Q :=
  match xs with
  | a :: (b :: _) as rest => (b - a)%Q :: diff rest
  | _ => []
  end.

Fixpoint trapezoid (xs ys : list Q) : Q :=
  match xs, ys with
  | x0 :: (x1 :: _) as xs', y0 :: (y1 :: _) as ys' =>
      ((x1 - x0) * (y1 + y0) / 2 + trapezoid xs' ys')%Q
  | _, _ => 0%Q
  end.

(** Modelled from the spec: [auc] belongs to scikit-learn and is absent
    from src/.  It integrates a curve (section 4.1) by the trapezoidal
    rule; [x] must be monotonic and hold at least two points, else
    [ValueError].  A curve with a non-finite coordinate integrates to
    not-a-number. *)
Definition exact_auc (x y : list float) : result float :=
  if negb (same_length x y) || (length x <? 2)%nat then Raise ValueError
  else match mapM finite_value x, mapM finite_value y with
       | Some xs, Some ys =>
           let dx := diff xs in
           if existsb Qnegative dx then
             if forallb (λ d, Qle_bool d 0) dx
             then Ok (Finite (Qred (- trapezoid xs ys)))
             else Raise ValueError
           else Ok (Finite (Qred (trapezoid xs ys)))
       | _, _ => Ok NaN
       end.

Definition exact_sklearn : Sklearn := {|
  precision_recall_fscore_support := exact_precision_recall_fscore_support;
  roc_curve := exact_roc_curve;
  auc := exact_auc;
  confusion_matrix := exact_confusion_matrix
|}.

(** ** A reference file system *)

(** The paths that exist, with [os.makedirs] adding one path and
    refusing a path that exists. *)
Definition flat_os : OS := {|
  fs := list string;
  os_path_exists d p := bool_decide (p ∈ d);
  os_makedirs d p := if bool_decide (p ∈ d) then None else Some (p :: d)
|}.

(** ** Predicates used by the statements *)

(** The outcome is not an out-of-range subscript. *)
Definition in_bounds {A} (r : result A) : Prop := r ≠ Raise IndexError.

(** Every sequence of every record of the history has [n] entries. *)
Definition consistent_lengths (n : nat)
    (metrics_history : list (gmap string (list float))) : Prop :=
  Forall (map_Forall (λ _ (s : list float), length s = n)) metrics_history.

(** The sum of a list of rationals. *)
Definition Qsum (l : list Q) : Q := foldr Qplus 0%Q l.

(** The exact quotients of a row of counts by the row's sum. *)
Definition exact_quotients (row : list Z) : list Q :=
  (λ x, inject_Z x / inject_Z (Zsum row))%Q <$> row.

(** ** Inputs of the worked examples *)

(** Twelve samples over three classes: of the ten samples of class 0,
    seven are predicted 0, two 1 and one 2. *)
Definition y_true_12 : list Z := [0; 0; 0; 0; 0; 0; 0; 0; 0; 0; 1; 2].
Definition y_pred_12 : list Z := [0; 0; 0; 0; 0; 0; 0; 1; 1; 2; 1; 2].

(** Three samples scored over three classes; each row sums to one. *)
Definition scores_3x3 : matrix := {|
  ncols := 3;
  rows := [ [Finite (3 # 10); Finite (6 # 10); Finite (1 # 10)];
            [Finite (7 # 10); Finite (2 # 10); Finite (1 # 10)];
            [Finite (1 # 10); Finite (7 # 10); Finite (2 # 10)] ]
|}.

(** Two samples scored over two classes. *)
Definition scores_2x2 : matrix := {|
  ncols := 2;
  rows := [ [Finite (2 # 10); Finite (8 # 10)];
            [Finite (7 # 10); Finite (3 # 10)] ]
|}.

(** Two rounds of metrics over two classes. *)
Definition history_2x2 : list (gmap string (list float)) :=
  [ <["f1" := [Finite (1 # 2); Finite 1]]>
      (<["recall" := [Finite (1 # 2); Finite 1]]>
         (<["precision" := [Finite (1 # 2); Finite 1]]> ∅));
    <["f1" := [Finite 1; Finite 1]]>
      (<["recall" := [Finite 1; Finite 1]]>
         (<["precision" := [Finite 1; Finite 1]]> ∅)) ].

(** An empty disk and a blank canvas. *)
Definition fresh_world : @world flat_os := @Build_world flat_os [] [].

(** ** [plot_precision_recall_curve] *)






(** ** Further readings of the canvas *)



(** ** Further predicates used by the statements *)







(** * Properties *)

(** ** Subscripts and loops *)

Lemma getitem_of_nat {A} (l : list A) (n : nat) :
  getitem l (Z.of_nat n) =
  match l !! n with
  | Some a => Ok a
  | None => Raise IndexError
  end.
Proof.
  unfold getitem; cbv zeta.
  assert ((Z.of_nat n <? 0) = false) as Hn by (apply Z.ltb_ge; lia).
  rewrite Hn; cbv iota; rewrite Hn, Nat2Z.id; simpl.
  destruct (l !! n) as [a|] eqn:E.
  - apply lookup_lt_Some in E.
    destruct (Z.leb_spec (Z.of_nat (length l)) (Z.of_nat n)); [lia|].
    reflexivity.
  - destruct (Z.of_nat (length l) <=? Z.of_nat n); reflexivity.
Qed.

Lemma for_cons {M} `{MRet M, MBind M} {A S} (x : A) (xs : list A)
    (body : S → A → M S) (s : S) :
  for_ (x :: xs) body s = body s x ≫= for_ xs body.
Proof. reflexivity. Qed.

Lemma check_pred_body_at (pre suf : list Z) (v : Z) (fr : check_pred_locals) :
  check_pred_body (pre ++ v :: suf) fr (Z.of_nat (length pre)) =
  Ok {| loc_i := Z.of_nat (length pre);
        loc_y := loc_y fr ++ [if v =? Z.of_nat (length pre) then 1 else 0] |}.
Proof.
  unfold check_pred_body; simpl.
  rewrite getitem_of_nat, list_lookup_middle by done; simpl.
  by destruct (v =? Z.of_nat (length pre)).
Qed.

Lemma check_pred_loop (suf pre acc : list Z) (i0 : Z) :
  ∃ i',
    for_ (Z.of_nat <$> seq (length pre) (length suf))
         (check_pred_body (pre ++ suf)) {| loc_i := i0; loc_y := acc |}
    = Ok {| loc_i := i';
            loc_y := acc ++ imap (λ s v, if v =? Z.of_nat (length pre + s) then 1 else 0) suf |}.
Proof.
  revert pre acc i0.
  induction suf as [|v suf IH]; intros pre acc i0.
  - exists i0. simpl. by rewrite app_nil_r.
  - change (length (v :: suf)) with (S (length suf)).
    rewrite <- cons_seq, fmap_cons, for_cons, check_pred_body_at.
    destruct (IH (pre ++ [v]) (acc ++ [if v =? Z.of_nat (length pre) then 1 else 0])
                 (Z.of_nat (length pre))) as [i' Hi'].
    rewrite length_app, <- app_assoc in Hi'; simpl in Hi'.
    replace (length pre + 1)%nat with (S (length pre)) in Hi' by lia.
    exists i'. simpl. rewrite Hi'.
    replace (length pre + 0)%nat with (length pre) by lia.
    rewrite <- app_assoc; simpl. do 4 f_equal.
    apply imap_ext; intros k x _; simpl.
    by replace (length pre + S k)%nat with (S (length pre + k)) by lia.
Qed.

(** What [check_pred] computes, as a function of [y_true] alone. *)
Lemma check_pred_eq (y_true : list Z) (c : Z) :
  check_pred y_true c = Ok (imap (λ s v, if v =? Z.of_nat s then 1 else 0) y_true).
Proof.
  unfold check_pred, range.
  destruct (check_pred_loop y_true [] [] c) as [i' Hi']; simpl in Hi'.
  rewrite Hi'. reflexivity.
Qed.

(** C2. The value [check_pred y_true c] computed by the code: a vector as
    long as [y_true] whose element at sample index [s] is 1 if and only if
    [y_true[s] == s] and is 0 otherwise; it is the same vector for every
    class argument [c]. *)
Theorem check_pred_compares_with_position (y_true : list Z) (c : Z) :
  ∃ ys,
    check_pred y_true c = Ok ys ∧
    length ys = length y_true ∧
    (∀ (s : nat) (v : Z), y_true !! s = Some v →
       (ys !! s = Some 1 ↔ v = Z.of_nat s) ∧
       (ys !! s = Some 0 ↔ v ≠ Z.of_nat s)) ∧
    (∀ c', check_pred y_true c' = Ok ys).
Proof.
  eexists. split; [apply check_pred_eq|].
  split; [apply length_imap|].
  split; [|intros c'; apply check_pred_eq].
  intros s v Hv. rewrite list_lookup_imap, Hv; simpl.
  destruct (Z.eqb_spec v (Z.of_nat s)); split; split; intros H; congruence.
Qed.

(** C1. At [y_true = [1; 1]] and class 1 both samples belong to the class,
    so the binarisation of class 1 is [[1; 1]]; the code returns
    [[0; 1]], the comparison of each label with its own position. *)
Theorem check_pred_class_1_of_1_1 :
  check_pred [1; 1] 1 = Ok [0; 1] ∧ one_vs_rest [1; 1] 1 = [1; 1].
Proof. split; reflexivity. Qed.

(** ** [np.unique] *)

Lemma elem_of_insert_sorted (x y : Z) (l : list Z) :
  y ∈ insert_sorted x l ↔ y = x ∨ y ∈ l.
Proof.
  induction l as [|h t IH]; simpl.
  - rewrite list_elem_of_singleton, elem_of_nil. tauto.
  - destruct (Z.ltb_spec x h); [apply elem_of_cons|].
    destruct (Z.eqb_spec x h) as [->|_]; [rewrite elem_of_cons; tauto|].
    rewrite !elem_of_cons, IH. tauto.
Qed.

Lemma elem_of_np_unique (y : Z) (l : list Z) : y ∈ np_unique l ↔ y ∈ l.
Proof.
  unfold np_unique. induction l as [|x l IH]; simpl; [done|].
  rewrite elem_of_insert_sorted, elem_of_cons, IH. tauto.
Qed.

Lemma insert_sorted_sorted (x : Z) (l : list Z) :
  StronglySorted Z.lt l → StronglySorted Z.lt (insert_sorted x l).
Proof.
  induction l as [|h t IH]; simpl; intros Hs.
  - repeat constructor.
  - apply StronglySorted_cons in Hs as [Hh Ht].
    destruct (Z.ltb_spec x h).
    + apply StronglySorted_cons. split; [|by apply StronglySorted_cons].
      constructor; [done|]. eapply Forall_impl; [exact Hh|]. simpl; lia.
    + destruct (Z.eqb_spec x h); [by apply StronglySorted_cons|].
      apply StronglySorted_cons. split; [|by apply IH].
      apply Forall_forall. intros z [->|Hz]%elem_of_insert_sorted; [lia|].
      by eapply Forall_forall in Hh.
Qed.

Lemma np_unique_sorted (l : list Z) : StronglySorted Z.lt (np_unique l).
Proof.
  unfold np_unique. induction l; simpl; [constructor|].
  by apply insert_sorted_sorted.
Qed.

Lemma np_unique_NoDup (l : list Z) : NoDup (np_unique l).
Proof.
  generalize (np_unique_sorted l). generalize (np_unique l). clear l.
  induction 1 as [|a l Hs IH Ha]; constructor; [|done].
  intros Hin. eapply Forall_forall in Ha; [|exact Hin]. lia.
Qed.

(** [len(np.unique(l))] is the number of distinct values of [l]. *)
Lemma np_unique_length (l : list Z) :
  length (np_unique l) = size (list_to_set l : gset Z).
Proof.
  rewrite <- (size_list_to_set (C := gset Z)) by apply np_unique_NoDup.
  f_equal. apply set_eq. intros z.
  by rewrite !elem_of_list_to_set, elem_of_np_unique.
Qed.

(** ** The per-class AUC loop *)


Lemma calculate_metrics_body_length `{Sklearn} (y_true : list Z)
    (y_score : matrix) (roc_auc r : list float) (i : Z) :
  calculate_metrics_body y_true y_score roc_auc i = Ok r →
  length r = S (length roc_auc).
Proof.
  unfold calculate_metrics_body.
  destruct (check_pred y_true i) as [b|]; simpl; [|done].
  destruct (1 <? length (np_unique b))%nat.
  - destruct (column y_score i) as [col|]; simpl; [|done].
    destruct (roc_curve b col) as [[[fpr tpr] thr]|]; simpl; [|done].
    destruct (auc fpr tpr) as [a|]; simpl; [|done].
    intros [= <-]. rewrite length_app; simpl; lia.
  - intros [= <-]. rewrite length_app; simpl; lia.
Qed.

Lemma calculate_metrics_loop_length `{Sklearn} (y_true : list Z)
    (y_score : matrix) (classes : list Z) (roc_auc r : list float) :
  for_ classes (calculate_metrics_body y_true y_score) roc_auc = Ok r →
  length r = (length roc_auc + length classes)%nat.
Proof.
  revert roc_auc. induction classes as [|c classes IH]; intros roc_auc; simpl.
  - intros [= <-]. lia.
  - destruct (calculate_metrics_body y_true y_score roc_auc c) as [acc|] eqn:E;
      simpl; [|done].
    intros Hr. apply IH in Hr. apply calculate_metrics_body_length in E. lia.
Qed.


(** C3. With [y_true = [0; 0; 2]] class 1 never appears in the ground
    truth, so its AUC should be the sentinel 0.0.  The code binarises
    every class to [[1; 0; 1]], takes the ROC branch and reports the AUC
    of column 1 against that vector, which is 1.0. *)
Theorem calculate_metrics_auc_of_absent_class :
  (1 ∉ [0; 0; 2]) ∧
  one_vs_rest [0; 0; 2] 1 = [0; 0; 0] ∧
  check_pred [0; 0; 2] 1 = Ok [1; 0; 1] ∧
  ∃ m,
    @calculate_metrics exact_sklearn [0; 0; 2] [0; 0; 2] (Some scores_3x3) None = Ok m ∧
    m !! "auc" = Some [Finite 0; Finite 1].
Proof.
  split.
  - by intros ?%list_elem_of_In; simpl in *; intuition lia.
  - split; [reflexivity|]. split; [reflexivity|].
    eexists. split; vm_compute; reflexivity.
Qed.

(** C4. On [y_true = [0,1,2,0,1,2]] and [y_pred = [0,1,1,0,2,2]] without
    scores, [calculate_metrics] returns three-element precision, recall
    and F1 sequences, each equal to [[1.0, 0.5, 0.5]], and no AUC. *)
Theorem calculate_metrics_end_to_end :
  ∃ m,
    @calculate_metrics exact_sklearn [0; 1; 2; 0; 1; 2] [0; 1; 1; 0; 2; 2] None None = Ok m ∧
    m !! "precision" = Some [Finite 1; Finite (1 # 2); Finite (1 # 2)] ∧
    m !! "recall" = Some [Finite 1; Finite (1 # 2); Finite (1 # 2)] ∧
    m !! "f1" = Some [Finite 1; Finite (1 # 2); Finite (1 # 2)] ∧
    m !! "auc" = None.
Proof. eexists. repeat split; vm_compute; reflexivity. Qed.

(** The AUC sequence has one entry per distinct ground-truth value,
    whatever scikit-learn computes. *)
Lemma calculate_metrics_auc_length `{Sklearn} (y_true y_pred : list Z)
    (y_score : matrix) (labels : option (list Z)) (m : gmap string (list float)) :
  calculate_metrics y_true y_pred (Some y_score) labels = Ok m →
  ∃ a, m !! "auc" = Some a ∧ length a = size (list_to_set y_true : gset Z).
Proof.
  unfold calculate_metrics.
  destruct (precision_recall_fscore_support y_true y_pred labels)
    as [[[[p r] f] sup]|]; simpl; [|done].
  destruct (for_ _ _ _) as [a|] eqn:E; simpl; [|done].
  intros [= <-]. exists a. split; [by simplify_map_eq|].
  apply calculate_metrics_loop_length in E.
  rewrite E. unfold range. rewrite length_fmap, length_seq. simpl.
  apply np_unique_length.
Qed.

(** C10. Called with a score matrix and an explicit [labels] argument,
    [calculate_metrics] returns an AUC sequence with one entry per
    distinct value of [y_true] and precision, recall and F1 sequences
    with one entry per element of [labels]; for some inputs the two
    numbers differ. *)
Theorem calculate_metrics_lengths_with_labels :
  (∀ (y_true y_pred : list Z) (y_score : matrix) (labels : list Z)
     (m : gmap string (list float)),
     @calculate_metrics exact_sklearn y_true y_pred (Some y_score) (Some labels) = Ok m →
     ∃ p r f a,
       m !! "precision" = Some p ∧ m !! "recall" = Some r ∧
       m !! "f1" = Some f ∧ m !! "auc" = Some a ∧
       length p = length labels ∧ length r = length labels ∧
       length f = length labels ∧
       length a = size (list_to_set y_true : gset Z)) ∧
  (∃ (y_true y_pred : list Z) (y_score : matrix) (labels : list Z)
     (m : gmap string (list float)) (p a : list float),
     @calculate_metrics exact_sklearn y_true y_pred (Some y_score) (Some labels) = Ok m ∧
     m !! "precision" = Some p ∧ m !! "auc" = Some a ∧
     length p ≠ length a).
Proof.
  split.
  - intros y_true y_pred y_score labels m Hm.
    destruct (calculate_metrics_auc_length _ _ _ _ _ Hm) as (a & Ha & Hlen).
    revert Hm. unfold calculate_metrics; simpl.
    unfold exact_precision_recall_fscore_support.
    destruct (negb (same_length y_true y_pred)); simpl; [done|].
    destruct (for_ _ _ _) as [a'|]; simpl; [|done].
    intros [= <-]. do 3 eexists. exists a.
    repeat split; [by simplify_map_eq..| | | |done];
      by rewrite length_fmap.
  - exists [0; 0; 2], [0; 0; 2], scores_3x3, [0; 1; 2].
    eexists. exists [Finite 1; Finite 0; Finite 1], [Finite 0; Finite 1].
    repeat split; [vm_compute; reflexivity..|].
    simpl. lia.
Qed.

Lemma calculate_metrics_lengths_with_labels_witness :
  ∃ p r f a : list float,
    length p = 3%nat ∧ length r = 3%nat ∧ length f = 3%nat ∧ length a = 2%nat.
Proof.
  destruct (proj1 calculate_metrics_lengths_with_labels
              [0; 0; 2] [0; 0; 2] scores_3x3 [0; 1; 2]
              (<["auc" := [Finite 0; Finite 1]]>
                 (<["f1" := [Finite 1; Finite 0; Finite 1]]>
                    (<["recall" := [Finite 1; Finite 0; Finite 1]]>
                       (<["precision" := [Finite 1; Finite 0; Finite 1]]> ∅)))))
    as (p & r & f & a & _ & _ & _ & _ & Hp & Hr & Hf & Ha).
  - vm_compute. reflexivity.
  - exists p, r, f, a. repeat split; [done..|].
    rewrite Ha. vm_compute. reflexivity.
Defined.

(** ** [ensure_dir] *)

Section EnsureDir.
Context {os : OS}.

Lemma ensure_dir_present (directory : string) (w : world) :
  os_path_exists (disk w) directory = true →
  ensure_dir directory w = Ok (tt, w).
Proof.
  intros He. unfold ensure_dir, path_exists, mbind, plotting_bind; simpl.
  by rewrite He.
Qed.

Lemma ensure_dir_absent (directory : string) (w : world) :
  os_path_exists (disk w) directory = false →
  ensure_dir directory w = makedirs directory w.
Proof.
  intros He. unfold ensure_dir, path_exists, mbind, plotting_bind; simpl.
  by rewrite He.
Qed.

(** A raised [ensure_dir] can only be the [OSError] of [os.makedirs]. *)
Lemma ensure_dir_raises (directory : string) (w : world) (e : exn) :
  ensure_dir directory w = Raise e → e = OSError.
Proof.
  destruct (os_path_exists (disk w) directory) eqn:He.
  - by rewrite ensure_dir_present.
  - rewrite ensure_dir_absent by done. unfold makedirs.
    destruct (os_makedirs _ _); [done|]. by intros [= <-].
Qed.

(** [ensure_dir] leaves the canvas alone. *)
Lemma ensure_dir_canvas (directory : string) (w w' : world) :
  ensure_dir directory w = Ok (tt, w') → canvas w' = canvas w.
Proof.
  destruct (os_path_exists (disk w) directory) eqn:He.
  - rewrite ensure_dir_present by done. by intros [= <-].
  - rewrite ensure_dir_absent by done. unfold makedirs.
    destruct (os_makedirs _ _); [|done]. by intros [= <-].
Qed.

Hypothesis makedirs_ok : makedirs_creates os.

Lemma ensure_dir_exists (directory : string) (w w' : world) :
  ensure_dir directory w = Ok (tt, w') →
  os_path_exists (disk w') directory = true.
Proof.
  destruct (os_path_exists (disk w) directory) eqn:He.
  - rewrite ensure_dir_present by done. by intros [= <-].
  - rewrite ensure_dir_absent by done. unfold makedirs.
    destruct (os_makedirs _ _) as [d|] eqn:Em; [|done].
    intros [= <-]. simpl. by eapply makedirs_ok.
Qed.

(** C5. [ensure_dir] returns without error and without effect when the
    directory already exists; calling it twice in a row is the same as
    calling it once; and whenever it returns the directory exists. *)
Theorem ensure_dir_idempotent (directory : string) (w : world) :
  (os_path_exists (disk w) directory = true →
     ensure_dir directory w = Ok (tt, w)) ∧
  (ensure_dir directory;; ensure_dir directory) w = ensure_dir directory w ∧
  (∀ w', ensure_dir directory w = Ok (tt, w') →
     os_path_exists (disk w') directory = true).
Proof.
  split; [apply ensure_dir_present|].
  split; [|apply ensure_dir_exists].
  unfold mbind at 1, plotting_bind.
  destruct (ensure_dir directory w) as [[[] w']|e] eqn:E; [|done].
  apply ensure_dir_present. by eapply ensure_dir_exists.
Qed.
End EnsureDir.

Lemma flat_os_makedirs_creates : makedirs_creates flat_os.
Proof.
  intros d d' p. simpl. case_bool_decide; [done|].
  intros [= <-]. apply bool_decide_eq_true, list_elem_of_here.
Qed.

Lemma ensure_dir_idempotent_witness :
  (@ensure_dir flat_os "plots";; @ensure_dir flat_os "plots") fresh_world
  = @ensure_dir flat_os "plots" fresh_world.
Proof.
  apply (@ensure_dir_idempotent flat_os flat_os_makedirs_creates "plots" fresh_world).
Defined.

(** ** [plot_confusion_matrix] *)

Lemma saved_files_app (l1 l2 : list plt_call) :
  saved_files (l1 ++ l2) = saved_files l1 ++ saved_files l2.
Proof. apply omap_app. Qed.

Lemma exact_confusion_matrix_returns (y_true y_pred : list Z) :
  length y_true = length y_pred →
  ∃ cm, exact_confusion_matrix y_true y_pred = Ok cm.
Proof.
  intros Hlen. unfold exact_confusion_matrix, same_length.
  rewrite Hlen, Nat.eqb_refl; simpl. eauto.
Qed.

(** The drawing calls of one [plot_confusion_matrix] that is given class
    names, in order. *)
Lemma plot_confusion_matrix_run `{OS, Sklearn} (y_true y_pred : list Z)
    (class_names : list string) (title save_dir : string)
    (w w1 : world) (cm : list (list Z)) :
  ensure_dir save_dir w = Ok (tt, w1) →
  confusion_matrix y_true y_pred = Ok cm →
  plot_confusion_matrix y_true y_pred (Some class_names) title save_dir w =
  Ok (tt, {| disk := disk w1;
             canvas := canvas w1 ++
               [ plt_figure 10 8;
                 sns_heatmap (FloatArray (normalize_rows cm)) true ".2f" "Blues"
                   class_names class_names;
                 plt_title title;
                 plt_ylabel "True Label";
                 plt_xlabel "Predicted Label";
                 plt_savefig (os_path_join save_dir "confusion_matrix_normalized.png")
                   300 "tight";
                 plt_close;
                 plt_figure 10 8;
                 sns_heatmap (IntArray cm) true "d" "Blues" class_names class_names;
                 plt_title (title +:+ " (Raw Counts)");
                 plt_ylabel "True Label";
                 plt_xlabel "Predicted Label";
                 plt_savefig (os_path_join save_dir "confusion_matrix_raw.png")
                   300 "tight";
                 plt_close ] |}).
Proof.
  intros He Hcm. unfold plot_confusion_matrix, mbind, plotting_bind.
  rewrite He, Hcm; simpl. unfold plt; simpl. by rewrite <- !app_assoc.
Qed.

(** Called without class names, [plot_confusion_matrix] hands [None] to the
    first heat map as its tick labels, and that raises before anything is
    saved. *)
Lemma plot_confusion_matrix_unnamed `{OS, Sklearn} (y_true y_pred : list Z)
    (title save_dir : string) (w w1 : world) (cm : list (list Z)) :
  ensure_dir save_dir w = Ok (tt, w1) →
  confusion_matrix y_true y_pred = Ok cm →
  plot_confusion_matrix y_true y_pred None title save_dir w = Raise TypeError.
Proof.
  intros He Hcm. unfold plot_confusion_matrix, mbind, plotting_bind.
  by rewrite He, Hcm.
Qed.

(** Given class names and label vectors of equal length, a call that gets
    its directory returns, having saved the normalised image and then the
    raw one. *)
Lemma plot_confusion_matrix_named `{OS} (y_true y_pred : list Z)
    (class_names : list string) (title save_dir : string) (w w1 : world) :
  length y_true = length y_pred →
  ensure_dir save_dir w = Ok (tt, w1) →
  ∃ w',
    @plot_confusion_matrix _ exact_sklearn y_true y_pred (Some class_names)
       title save_dir w = Ok (tt, w') ∧
    saved_files (canvas w') =
      saved_files (canvas w) ++
      [ os_path_join save_dir "confusion_matrix_normalized.png";
        os_path_join save_dir "confusion_matrix_raw.png" ].
Proof.
  intros Hlen He.
  destruct (exact_confusion_matrix_returns _ _ Hlen) as [cm Hcm].
  eexists. split.
  - by apply (plot_confusion_matrix_run (H0 := exact_sklearn)) with (cm := cm).
  - simpl. rewrite saved_files_app. by rewrite (ensure_dir_canvas _ _ _ He).
Qed.

(** C7. With [y_true = [0,1,1,0]] and [y_pred = [0,1,0,0]] every class has
    a ground-truth sample, so the call should write the two images.
    Called as the signature allows, without class names, it raises
    [TypeError] at the first heat map and writes nothing; only a caller
    who passes class names gets the two files. *)
Theorem plot_confusion_matrix_default_class_names :
  Forall (λ c, c ∈ [0; 1; 1; 0]) (unique_labels [0; 1; 1; 0] [0; 1; 0; 0]) ∧
  @plot_confusion_matrix flat_os exact_sklearn [0; 1; 1; 0] [0; 1; 0; 0] None
     "Confusion Matrix" "plots" fresh_world = Raise TypeError ∧
  ∃ w',
    @plot_confusion_matrix flat_os exact_sklearn [0; 1; 1; 0] [0; 1; 0; 0]
       (Some ["Class 0"; "Class 1"]) "Confusion Matrix" "plots" fresh_world
      = Ok (tt, w') ∧
    saved_files (canvas w') =
      [ "plots/confusion_matrix_normalized.png";
        "plots/confusion_matrix_raw.png" ].
Proof.
  split; [vm_compute; repeat constructor|].
  split; [vm_compute; reflexivity|].
  eexists. split; vm_compute; reflexivity.
Qed.

(** *** Counting *)

Lemma count_where_cons {A} (P : A → bool) (a : A) (l : list A) :
  count_where P (a :: l) = if P a then count_where P l + 1 else count_where P l.
Proof. reflexivity. Qed.

Lemma count_where_nonneg {A} (P : A → bool) (l : list A) : 0 ≤ count_where P l.
Proof.
  induction l as [|a l IH]; [done|].
  rewrite count_where_cons. destruct (P a); lia.
Qed.

Lemma count_where_pos {A} (P : A → bool) (l : list A) (a : A) :
  a ∈ l → P a = true → 0 < count_where P l.
Proof.
  intros Hin Ha. induction Hin as [a l|a b l _ IH]; rewrite count_where_cons.
  - rewrite Ha. pose proof (count_where_nonneg P l). lia.
  - specialize (IH Ha). destruct (P b); lia.
Qed.

Lemma count_where_zip_fst {A B} (P : A → bool) (a : list A) (b : list B) :
  length a = length b →
  count_where (λ tp : A * B, P tp.1) (zip a b) = count_where P a.
Proof.
  revert b. induction a as [|x a IH]; intros [|y b] Hlen;
    try discriminate Hlen; [done|].
  change (zip (x :: a) (y :: b)) with ((x, y) :: zip a b).
  rewrite !count_where_cons; simpl.
  rewrite IH; [done|by injection Hlen].
Qed.

Lemma Zsum_cons (x : Z) (l : list Z) : Zsum (x :: l) = x + Zsum l.
Proof. reflexivity. Qed.

Lemma Zsum_zero (l : list Z) :
  Forall (λ x, 0 ≤ x) l → Zsum l = 0 → Forall (λ x, x = 0) l.
Proof.
  induction 1 as [|x l Hx Hl IH]; [constructor|].
  rewrite Zsum_cons. intros Hs.
  assert (0 ≤ Zsum l).
  { clear -Hl. induction Hl; [done|]. rewrite Zsum_cons. lia. }
  constructor; [lia|]. apply IH. lia.
Qed.

(** Adding one to the entry of a label [p] adds one to the sum over
    distinct labels that include [p]. *)
Lemma Zsum_bump (g : Z → Z) (p : Z) (labels : list Z) :
  NoDup labels →
  Zsum ((λ c, if p =? c then g c + 1 else g c) <$> labels) =
  Zsum (g <$> labels) + (if bool_decide (p ∈ labels) then 1 else 0).
Proof.
  induction 1 as [|c labels Hc Hnd IH]; [done|].
  rewrite !fmap_cons, !Zsum_cons, IH.
  destruct (Z.eqb_spec p c) as [->|Hne].
  - rewrite (bool_decide_eq_true_2 (c ∈ c :: labels)) by apply list_elem_of_here.
    rewrite (bool_decide_eq_false_2 (c ∈ labels)) by done. lia.
  - destruct (decide (p ∈ labels)) as [Hin|Hin].
    + rewrite (bool_decide_eq_true_2 (p ∈ c :: labels))
        by (by apply list_elem_of_further).
      rewrite (bool_decide_eq_true_2 (p ∈ labels)) by done. lia.
    + rewrite (bool_decide_eq_false_2 (p ∈ c :: labels))
        by (by intros [?|?]%elem_of_cons).
      rewrite (bool_decide_eq_false_2 (p ∈ labels)) by done. lia.
Qed.

(** A row of the confusion matrix sums to the number of samples of its
    true class. *)
Lemma confusion_row_sum (labels : list Z) (pairs : list (Z * Z)) (r : Z) :
  NoDup labels →
  Forall (λ tp : Z * Z, tp.2 ∈ labels) pairs →
  Zsum ((λ c, count_where (λ tp : Z * Z, (tp.1 =? r) && (tp.2 =? c)) pairs) <$> labels)
  = count_where (λ tp : Z * Z, tp.1 =? r) pairs.
Proof.
  intros Hnd. induction 1 as [|[t p] pairs Hp Hps IH].
  - simpl. induction labels as [|c labels IHl]; [done|].
    apply NoDup_cons in Hnd as [_ Hnd].
    rewrite fmap_cons, Zsum_cons, IHl by done. done.
  - rewrite count_where_cons; simpl. rewrite <- IH.
    set (g := λ c, count_where (λ tp : Z * Z, (tp.1 =? r) && (tp.2 =? c)) pairs).
    destruct (Z.eqb_spec t r) as [->|Hne].
    + rewrite (list_fmap_ext _ (λ c, if p =? c then g c + 1 else g c)).
      * rewrite Zsum_bump by done.
        by rewrite bool_decide_eq_true_2 by done.
      * by intros _ c _.
    + f_equal.
Qed.

(** *** Division by a row sum *)

Lemma inject_Z_nonzero (s : Z) : s ≠ 0 → ¬ (inject_Z s == 0)%Q.
Proof. unfold Qeq, inject_Z; simpl. lia. Qed.

Lemma Qsum_quotients (row : list Z) (s : Z) :
  s ≠ 0 →
  (Qsum ((λ x, inject_Z x / inject_Z s) <$> row) == inject_Z (Zsum row) / inject_Z s)%Q.
Proof.
  intros Hs%inject_Z_nonzero. induction row as [|x row IH].
  - simpl. by field.
  - rewrite fmap_cons, Zsum_cons, inject_Z_plus.
    change (Qsum (?q :: ?l)) with (q + Qsum l)%Q. rewrite IH. by field.
Qed.

(** The exact quotients of a row of counts by its positive sum add up to
    one. *)
Lemma Qsum_exact_quotients (row : list Z) :
  0 < Zsum row → (Qsum (exact_quotients row) == 1)%Q.
Proof.
  intros Hpos. unfold exact_quotients.
  rewrite Qsum_quotients by lia. field. apply inject_Z_nonzero. lia.
Qed.

(** A row of counts whose sum is zero divides to not-a-number throughout. *)
Lemma nan_normalized_row (row : list Z) :
  Forall (λ x, 0 ≤ x) row →
  Zsum row = 0 →
  Forall (λ x, x = SpecFloat.S754_nan)
         ((λ x, div64 (float64_of_int x) (float64_of_int (Zsum row))) <$> row).
Proof.
  intros Hnn Hz. apply Forall_fmap.
  eapply Forall_impl; [exact (Zsum_zero row Hnn Hz)|].
  intros x ->. simpl. by rewrite Hz.
Qed.

Lemma normalize_rows_eq (cm : list (list Z)) :
  normalize_rows cm =
  (λ row, (λ x, div64 (float64_of_int x) (float64_of_int (Zsum row))) <$> row) <$> cm.
Proof.
  unfold normalize_rows, divide_rows, astype_float, sum_axis1.
  induction cm as [|row cm IH]; [done|].
  rewrite !fmap_cons. simpl. rewrite IH. f_equal.
  by rewrite <- list_fmap_compose.
Qed.

(** Row [r] of the confusion matrix holds counts and sums to the number
    of ground-truth samples of the [r]-th label. *)
Lemma exact_confusion_matrix_row (y_true y_pred : list Z) (cm : list (list Z))
    (r : nat) (row : list Z) :
  exact_confusion_matrix y_true y_pred = Ok cm →
  cm !! r = Some row →
  ∃ l, unique_labels y_true y_pred !! r = Some l ∧
       Forall (λ x, 0 ≤ x) row ∧
       Zsum row = count_where (λ t, t =? l) y_true.
Proof.
  unfold exact_confusion_matrix, same_length.
  destruct (Nat.eqb_spec (length y_true) (length y_pred)) as [Hlen|]; [|done].
  simpl. intros [= <-]. rewrite list_lookup_fmap.
  destruct (unique_labels y_true y_pred !! r) as [l|] eqn:El; [|done].
  simpl. intros [= <-]. exists l. split; [done|]. split.
  - apply Forall_fmap, Forall_forall. intros c _. apply count_where_nonneg.
  - rewrite confusion_row_sum.
    + by apply (count_where_zip_fst (λ t, t =? l)).
    + apply np_unique_NoDup.
    + apply Forall_forall. intros [t p] Hin. simpl.
      apply elem_of_np_unique, elem_of_app. right.
      by eapply elem_of_zip_r in Hin.
Qed.

(** The claim C8 as it stands fails.  In [y_true_12], [y_pred_12] every
    class has a ground-truth sample and the row of class 0 is [[7; 2; 1]].
    Its three binary64 quotients by 10 add up, left to right, to
    0.99999999999999989, and the numbers they stand for do not add up to
    one either. *)
Lemma normalized_row_sum_not_one :
  Forall (λ c, c ∈ y_true_12) (unique_labels y_true_12 y_pred_12) ∧
  ∃ cm nrow qs,
    exact_confusion_matrix y_true_12 y_pred_12 = Ok cm ∧
    cm !! 0%nat = Some [7; 2; 1] ∧
    normalize_rows cm !! 0%nat = Some nrow ∧
    sum64 nrow = SpecFloat.S754_finite false 9007199254740991 (-53) ∧
    sum64 nrow ≠ float64_of_int 1 ∧
    mapM Q_of_float64 nrow = Some qs ∧
    ¬ (Qsum qs == 1)%Q.
Proof.
  split; [vm_compute; repeat constructor|].
  do 3 eexists.
  split; [vm_compute; reflexivity|].
  split; [reflexivity|].
  split; [vm_compute; reflexivity|].
  split; [vm_compute; reflexivity|].
  split; [vm_compute; discriminate|].
  split; [vm_compute; reflexivity|].
  intros Hq. vm_compute in Hq. discriminate Hq.
Qed.

(** C8, amended.  The normalised matrix drawn by [plot_confusion_matrix]
    is the raw-count matrix with every entry divided, in binary64, by the
    sum of its row.  When every class has a ground-truth sample every row
    sum is positive and the exact quotients of a row add up to one; the
    rounded entries need not.  A row whose sum is zero becomes
    not-a-number throughout, and a call that is given class names still
    returns and draws it. *)
Theorem confusion_matrix_row_normalisation `{OS} (y_true y_pred : list Z)
    (class_names : list string) (title save_dir : string)
    (w w1 : world) (cm : list (list Z)) :
  exact_confusion_matrix y_true y_pred = Ok cm →
  ensure_dir save_dir w = Ok (tt, w1) →
  (∃ w',
     @plot_confusion_matrix _ exact_sklearn y_true y_pred (Some class_names)
        title save_dir w = Ok (tt, w') ∧
     sns_heatmap (FloatArray (normalize_rows cm)) true ".2f" "Blues"
       class_names class_names ∈ canvas w') ∧
  length (normalize_rows cm) = length cm ∧
  ∀ (r : nat) (row : list Z), cm !! r = Some row →
    ∃ nrow,
      normalize_rows cm !! r = Some nrow ∧
      nrow = (λ x, div64 (float64_of_int x) (float64_of_int (Zsum row))) <$> row ∧
      (Forall (λ c, c ∈ y_true) (unique_labels y_true y_pred) →
         0 < Zsum row ∧ (Qsum (exact_quotients row) == 1)%Q) ∧
      (Zsum row = 0 → Forall (λ x, x = SpecFloat.S754_nan) nrow).
Proof.
  intros Hcm He. split; [|split].
  - eexists. split.
    + by apply (plot_confusion_matrix_run (H0 := exact_sklearn)) with (cm := cm).
    + simpl. apply elem_of_app. right.
      apply list_elem_of_further, list_elem_of_here.
  - by rewrite normalize_rows_eq, length_fmap.
  - intros r row Hrow.
    destruct (exact_confusion_matrix_row _ _ _ _ _ Hcm Hrow) as (l & Hl & Hnn & Hsum).
    eexists. split; [|split; [reflexivity|split]].
    + by rewrite normalize_rows_eq, list_lookup_fmap, Hrow.
    + intros Hall.
      assert (0 < Zsum row) as Hpos.
      { rewrite Hsum. apply (count_where_pos _ _ l); [|apply Z.eqb_refl].
        eapply Forall_forall in Hall; [exact Hall|].
        by eapply list_elem_of_lookup_2. }
      split; [done|]. by apply Qsum_exact_quotients.
    + intros Hz. by apply nan_normalized_row.
Qed.

Lemma confusion_matrix_row_normalisation_witness :
  ∃ nrow,
    normalize_rows [[7; 2; 1]; [0; 1; 0]; [0; 0; 1]] !! 0%nat = Some nrow ∧
    (Qsum (exact_quotients [7; 2; 1]%Z) == 1)%Q.
Proof.
  destruct (@confusion_matrix_row_normalisation flat_os
              y_true_12 y_pred_12 ["a"; "b"; "c"] "Confusion Matrix" "plots"
              fresh_world (@Build_world flat_os ["plots"] [])
              [[7; 2; 1]; [0; 1; 0]; [0; 0; 1]])
    as (_ & _ & Hrows).
  - vm_compute. reflexivity.
  - vm_compute. reflexivity.
  - destruct (Hrows 0%nat [7; 2; 1]) as (nrow & Hn & _ & Hone & _); [reflexivity|].
    exists nrow. split; [exact Hn|]. apply Hone.
    vm_compute. repeat constructor.
Defined.

(** ** [plot_roc_curve] *)

(** C6. With [y_true = [1; 0]] each of the classes 0 and 1 has one
    positive and one negative ground-truth sample, so each should get a
    labelled ROC curve.  The code binarises both classes to [[0; 0]],
    skips both, and saves a figure that holds the diagonal only. *)
Theorem plot_roc_curve_skips_populated_classes :
  one_vs_rest [1; 0] 0 = [0; 1] ∧
  one_vs_rest [1; 0] 1 = [1; 0] ∧
  check_pred [1; 0] 0 = Ok [0; 0] ∧
  check_pred [1; 0] 1 = Ok [0; 0] ∧
  ∃ w',
    @plot_roc_curve flat_os exact_sklearn [1; 0] scores_2x2 None
       "ROC Curves" "plots" fresh_world = Ok (tt, w') ∧
    labelled_curves (canvas w') = [] ∧
    saved_files (canvas w') = ["plots/roc_curves.png"].
Proof.
  do 4 (split; [reflexivity|]).
  eexists. repeat split; vm_compute; reflexivity.
Qed.

(** ** [plot_metrics_line] *)

Section InBounds.
Context {os : OS}.

Lemma in_bounds_bind {A B} (m : plotting A) (k : A → plotting B) (w : world) :
  in_bounds (m w) →
  (∀ a w', m w = Ok (a, w') → in_bounds (k a w')) →
  in_bounds ((m ≫= k) w).
Proof.
  unfold mbind, plotting_bind.
  destruct (m w) as [[a w']|e].
  - intros _ Hk. by apply Hk.
  - unfold in_bounds. intros He _ [= ->]. by apply He.
Qed.

Lemma in_bounds_plt (c : plt_call) (w : world) : in_bounds (plt c w).
Proof. done. Qed.

Lemma in_bounds_ret {A} (a : A) (w : world) : in_bounds (mret (M := plotting) a w).
Proof. done. Qed.

Lemma in_bounds_lift {A} (r : result A) (w : world) :
  in_bounds r → in_bounds (lift r w).
Proof. unfold in_bounds, lift. destruct r; congruence. Qed.

Lemma lift_Ok {A} (r : result A) (a : A) (w w' : world) :
  lift r w = Ok (a, w') → r = Ok a.
Proof. unfold lift. destruct r; [|done]. by intros [= -> _]. Qed.

Lemma in_bounds_ensure_dir (directory : string) (w : world) :
  in_bounds (ensure_dir directory w).
Proof. intros He. by apply ensure_dir_raises in He. Qed.

Lemma in_bounds_for {A S} (xs : list A) (body : S → A → plotting S) (s : S)
    (w : world) :
  (∀ x s' w', x ∈ xs → in_bounds (body s' x w')) →
  in_bounds (for_ xs body s w).
Proof.
  revert s w. induction xs as [|x xs IH]; intros s w Hbody; [done|].
  rewrite for_cons. apply in_bounds_bind.
  - apply Hbody, list_elem_of_here.
  - intros s' w' _. apply IH. intros y s'' w'' Hy.
    by apply Hbody, list_elem_of_further.
Qed.
End InBounds.

Lemma in_bounds_comprehension {A B} (f : A → result B) (xs : list A) :
  Forall (λ x, in_bounds (f x)) xs → in_bounds (comprehension f xs).
Proof.
  unfold in_bounds.
  induction 1 as [|x xs Hx _ IH]; [done|]. simpl.
  destruct (f x) as [b|e]; simpl; [|congruence].
  destruct (comprehension f xs) as [bs|e]; simpl; [done|congruence].
Qed.

Lemma elem_of_range (n : nat) (x : Z) :
  x ∈ range n ↔ ∃ k : nat, x = Z.of_nat k ∧ (k < n)%nat.
Proof.
  unfold range. rewrite list_elem_of_fmap.
  split; intros (k & -> & Hk); exists k; (split; [done|]).
  - apply elem_of_seq in Hk. lia.
  - apply elem_of_seq. lia.
Qed.

(** A subscript below the common length never leaves a sequence. *)
Lemma in_bounds_metric_at (key : string) (k n : nat)
    (m : gmap string (list float)) :
  map_Forall (λ _ (s : list float), length s = n) m →
  (k < n)%nat →
  in_bounds (metric_at key (Z.of_nat k) m).
Proof.
  intros Hm Hk. unfold metric_at, dict_getitem.
  destruct (m !! key) as [s|] eqn:E; [|done]. simpl.
  rewrite getitem_of_nat.
  destruct (lookup_lt_is_Some_2 s k) as [x ->]; [|done].
  apply Hm in E. simpl in E. lia.
Qed.

Lemma in_bounds_metric_column (key : string) (k n : nat)
    (metrics_history : list (gmap string (list float))) :
  consistent_lengths n metrics_history →
  (k < n)%nat →
  in_bounds (comprehension (metric_at key (Z.of_nat k)) metrics_history).
Proof.
  intros Hc Hk. apply in_bounds_comprehension.
  eapply Forall_impl; [exact Hc|]. intros m Hm.
  by eapply in_bounds_metric_at.
Qed.

Lemma getitem_first {A} (x : A) (l : list A) : getitem (x :: l) 0 = Ok x.
Proof. apply (getitem_of_nat (x :: l) 0). Qed.

Lemma in_bounds_dict_getitem (m : gmap string (list float)) (key : string) :
  in_bounds (dict_getitem m key).
Proof. unfold dict_getitem. by destruct (m !! key). Qed.

Ltac in_bounds_step :=
  first [ apply in_bounds_plt
        | apply in_bounds_ret
        | apply in_bounds_ensure_dir
        | apply in_bounds_lift
        | apply in_bounds_bind; [|intros ? ? _] ].

Lemma in_bounds_plot_metrics_line_body `{OS}
    (metrics_history : list (gmap string (list float)))
    (epochs : list float) (n_classes n k : nat) (w : world) :
  metrics_history ≠ [] →
  consistent_lengths n metrics_history →
  (k < n)%nat →
  in_bounds (plot_metrics_line_body metrics_history epochs n_classes tt (Z.of_nat k) w).
Proof.
  intros Hne Hc Hk. unfold plot_metrics_line_body.
  destruct metrics_history as [|first rest]; [done|].
  in_bounds_step; [in_bounds_step|].
  do 3 (in_bounds_step;
        [in_bounds_step; by eapply in_bounds_metric_column|]).
  do 3 (in_bounds_step; [in_bounds_step|]).
  in_bounds_step; [in_bounds_step; by rewrite getitem_first|].
  in_bounds_step.
  - case_bool_decide; [|in_bounds_step].
    in_bounds_step; [|in_bounds_step].
    in_bounds_step. by eapply in_bounds_metric_column.
  - repeat in_bounds_step.
Qed.

(** C9. [plot_metrics_line] needs a non-empty history.  On an empty
    history the subscript [metrics_history[0]] is out of range: the call
    never returns, and raises [IndexError] as soon as its directory is
    there.  On a non-empty history whose sequences all have the same
    length no subscript is out of range. *)
Theorem plot_metrics_line_needs_history `{OS} (title save_dir : string) (w : world) :
  getitem ([] : list (gmap string (list float))) 0 = Raise IndexError ∧
  (∀ w', plot_metrics_line [] title save_dir w ≠ Ok (tt, w')) ∧
  (∀ w1, ensure_dir save_dir w = Ok (tt, w1) →
     plot_metrics_line [] title save_dir w = Raise IndexError) ∧
  (∀ (metrics_history : list (gmap string (list float))) (n : nat),
     metrics_history ≠ [] →
     consistent_lengths n metrics_history →
     in_bounds (plot_metrics_line metrics_history title save_dir w)).
Proof.
  split; [reflexivity|]. split; [|split].
  - intros w'. unfold plot_metrics_line, mbind, plotting_bind.
    by destruct (ensure_dir save_dir w) as [[[] w1]|e].
  - intros w1 He. unfold plot_metrics_line, mbind, plotting_bind.
    by rewrite He.
  - intros metrics_history n Hne Hc. unfold plot_metrics_line.
    destruct metrics_history as [|first rest] eqn:Eh; [done|]. rewrite <- Eh in *.
    in_bounds_step; [in_bounds_step|].
    in_bounds_step; [in_bounds_step|].
    apply in_bounds_bind; [in_bounds_step; by rewrite Eh, getitem_first|].
    intros first' w3 Hf%lift_Ok. rewrite Eh, getitem_first in Hf.
    injection Hf as <-.
    apply in_bounds_bind; [in_bounds_step; apply in_bounds_dict_getitem|].
    intros first_precision w4 Hp%lift_Ok.
    assert (length first_precision = n) as ->.
    { unfold dict_getitem in Hp.
      destruct (first !! "precision") as [s|] eqn:E; [|done].
      injection Hp as <-. rewrite Eh in Hc.
      apply Forall_cons in Hc as [Hfirst _]. by apply Hfirst in E. }
    in_bounds_step; [|repeat in_bounds_step].
    apply in_bounds_for. intros x [] wx (k & -> & Hk)%elem_of_range.
    by apply in_bounds_plot_metrics_line_body with (n := n).
Qed.

Lemma plot_metrics_line_needs_history_witness :
  in_bounds (@plot_metrics_line flat_os history_2x2 "Metrics Over Time" "plots" fresh_world).
Proof.
  apply (proj2 (proj2 (proj2 (@plot_metrics_line_needs_history flat_os
           "Metrics Over Time" "plots" fresh_world))) history_2x2 2%nat).
  - discriminate.
  - unfold consistent_lengths. apply (bool_decide_unpack _). vm_compute. exact I.
Defined.

(** A well-formed history of two rounds over two classes is plotted in two
    subplots and saved as one image. *)
Example plot_metrics_line_two_classes :
  ∃ w',
    @plot_metrics_line flat_os history_2x2 "Metrics Over Time" "plots" fresh_world
      = Ok (tt, w') ∧
    saved_files (canvas w') = ["plots/metrics_over_time.png"] ∧
    omap (λ c, match c with plt_subplot _ _ k => Some k | _ => None end) (canvas w')
      = [1; 2].
Proof. eexists. repeat split; vm_compute; reflexivity. Qed.

(** A label that is predicted but never true has a zero row, which
    normalises to not-a-number. *)
Example normalize_rows_absent_class :
  exact_confusion_matrix [0; 0] [0; 1] = Ok [[1; 1]; [0; 0]] ∧
  normalize_rows [[1; 1]; [0; 0]]
    = [ [ SpecFloat.S754_finite false 4503599627370496 (-53);
          SpecFloat.S754_finite false 4503599627370496 (-53) ];
        [ SpecFloat.S754_nan; SpecFloat.S754_nan ] ].
Proof. split; vm_compute; reflexivity. Qed.


(** * Further properties *)

(** ** The guard of the per-class loops *)








(** ** [calculate_metrics], continued *)










(** ** [ensure_dir], continued *)


(** ** The per-class loops of the curve plots *)





(** *** [plot_roc_curve] *)














(** *** [plot_precision_recall_curve] *)










(** ** [plot_metrics_line], continued *)














